(** * Color_sheet: the coloring-challenge bot (bot.py)

    A shallow embedding of the three handlers of [bot.py], of the table
    that [main] registers them in and of the start-up script, followed by
    the properties of the specification that can be settled on them.

    Everything outside the file (the chat transport, the image-generation
    provider, PIL, the random generator, the operating system) is reached
    through one record of oracles, [world]: an oracle answers a call with
    a value or with an exception.  The handlers run in a small monad that
    threads the local disk and a journal of the effects performed, and in
    which [try ... except Exception] is a combinator. *)

From Stdlib Require Import Strings.Ascii Strings.Byte.
From stdpp Require Import base strings pretty list gmap.

Local Open Scope Z_scope.

(** ** Python values *)

Abbreviation bytes := (list Byte.byte).

(** The line feed of the f-strings of the source. *)
Definition LF : string := String "010"%char EmptyString.

(** [str(n)] for an [int]. *)
Definition str (n : Z) : string := pretty n.

(** An exception deriving from [Exception]: its class and [str(e)]. *)
Record exn := Exception { exn_class : string; exn_str : string }.

Inductive outcome (A : Type) : Type :=
| Returned (a : A)
| Raised (e : exn).
Arguments Returned {A} a.
Arguments Raised {A} e.

Definition IndexError (what : string) : exn :=
  Exception "IndexError" (what +:+ " index out of range").

Definition AttributeError (msg : string) : exn :=
  Exception "AttributeError" msg.

Definition FileNotFoundError (path : string) : exn :=
  Exception "FileNotFoundError"
            ("[Errno 2] No such file or directory: '" +:+ path +:+ "'").

(** ** The data the handlers see *)

(** [update.effective_user] *)
Record User := { id : Z }.

(** One size variant of an uploaded photo. *)
Record PhotoSize := { file_id : string }.

(** [update.message]: [text] is [None] on a message that is not a text
    message, [photo] is the tuple of size variants, smallest first. *)
Record Message := { text : option string; photo : list PhotoSize }.

(** An update whose [update.message] is set, with its sender; the other
    kinds of update are [Inbound] below. *)
Record Update := { effective_user : User; message : Message }.

(** The request of [openai.images.generate] and its response. *)
Record GenerationRequest :=
  { model : string; prompt : string; n : Z; size : string }.

Record GeneratedImage := { url : string }.

Record ImagesResponse := { data : list GeneratedImage }.

(** What [context.bot.get_file] returns: downloading it yields the
    content of the file, or raises. *)
Record File := { remote_content : outcome bytes }.

(** The part of PIL that the submission handler uses.  [Image_open]
    stands for opening and decoding, [convert] works in memory, [save]
    encodes in the given format. *)
Record PIL := {
  Image : Type;
  Image_open : bytes → outcome Image;
  mode : Image → string;
  convert : Image → string → Image;
  save : Image → string → outcome bytes
}.

(** An outbound message of the transport. *)
Inductive outbound :=
| text_message (body : string)
| photo_message (photo_ref : string) (caption : string).

Inductive level := INFO | ERROR.

(** ** The world outside *)

Record world := {
  (** [openai.images.generate(...)] *)
  images_generate : GenerationRequest → outcome ImagesResponse;
  (** the state of the generator behind [random.randint] *)
  entropy : Z;
  (** [update.message.reply_text] and [reply_photo]: [None] when the
      transport delivers the message, the exception otherwise *)
  transport : outbound → option exn;
  (** [context.bot.get_file(file_id)] *)
  get_file : string → outcome File;
  pil : PIL;
  (** [filters.COMMAND] and the check of [CommandHandler("start", _)],
      both decided by the framework from the entities of the message *)
  filters_COMMAND : Message → bool;
  is_start_command : Message → bool
}.

(** ** Effects *)

Inductive event :=
| Logged (l : level) (msg : string)
| Requested (req : GenerationRequest)
| Delivered (m : outbound)
| SendFailed (m : outbound) (e : exn)
| Wrote (path : string) (content : bytes)
| Removed (path : string).

Record state := { disk : gmap string bytes; journal : list event }.

Definition IO (A : Type) : Type := state → outcome A * state.

Definition record (ev : event) (s : state) : state :=
  {| disk := disk s; journal := journal s ++ [ev] |}.

Definition on_disk (f : gmap string bytes → gmap string bytes) (s : state) : state :=
  {| disk := f (disk s); journal := journal s |}.

#[export] Instance IO_ret : MRet IO := λ A a s, (Returned a, s).

#[export] Instance IO_bind : MBind IO := λ A B k m s,
  match m s with
  | (Returned a, s') => k a s'
  | (Raised e, s') => (Raised e, s')
  end.

Definition raise {A : Type} (e : exn) : IO A := λ s, (Raised e, s).

(** [try: body except Exception as e: handler e] *)
Definition try_except {A : Type} (body : IO A) (handler : exn → IO A) : IO A :=
  λ s, match body s with
       | (Returned a, s') => (Returned a, s')
       | (Raised e, s') => handler e s'
       end.

Definition lift {A : Type} (r : outcome A) : IO A := λ s, (r, s).

(** [logger.info] and [logger.error] *)
Definition logger_info (msg : string) : IO unit :=
  λ s, (Returned tt, record (Logged INFO msg) s).

Definition logger_error (msg : string) : IO unit :=
  λ s, (Returned tt, record (Logged ERROR msg) s).

(** A send through the transport. *)
Definition send (w : world) (m : outbound) : IO unit :=
  λ s, match transport w m with
       | None => (Returned tt, record (Delivered m) s)
       | Some e => (Raised e, record (SendFailed m e) s)
       end.

Definition reply_text (w : world) (body : string) : IO unit :=
  send w (text_message body).

Definition reply_photo (w : world) (photo_ref caption : string) : IO unit :=
  send w (photo_message photo_ref caption).

(** [random.randint(a, b)]: an integer of [[a, b]]. *)
Definition randint (w : world) (a b : Z) : Z := a + entropy w `mod` (b - a + 1).

(** [l[0]] and [l[-1]] *)
Definition first_item {A : Type} (what : string) (l : list A) : IO A :=
  match l with
  | x :: _ => mret x
  | [] => raise (IndexError what)
  end.

Definition last_item {A : Type} (what : string) (l : list A) : IO A :=
  match last l with
  | Some x => mret x
  | None => raise (IndexError what)
  end.

(** ** The handlers *)

(** Lines 39-45. *)
Definition start (w : world) (update : Update) : IO unit :=
  try_except
    (logger_info ("Start command received from user "
                    +:+ str (id (effective_user update)));;
     reply_text w (":wave: Welcome to the Weekly Coloring Challenge!" +:+ LF +:+ LF
                     +:+ "Send me a prompt like:" +:+ LF
                     +:+ "`A cat riding a bike` :bike::cat:"))
    (λ e,
     logger_error ("Error in start handler: " +:+ exn_str e);;
     reply_text w "Sorry, something went wrong. Please try again later.").

(** Lines 71-79: the appreciation message of the prompt handler. *)
Definition prompt_appreciation (rating : Z) : string :=
  if rating =? 10 then "Excellent work! You've nailed it!"
  else if rating >=? 8 then "Great job! Really impressive!"
  else if rating >=? 6 then "Good effort! Keep it up!"
  else "Nice try! Keep practicing!".

(** Line 58: the prompt sent to the provider. *)
Definition dalle_prompt (prompt : string) : string :=
  "Black and white line art of: " +:+ prompt +:+ ", suitable for coloring book".

(** Lines 59-64: the arguments of [openai.images.generate]. *)
Definition generation_request (prompt : string) : GenerationRequest :=
  {| model := "dall-e-3"; prompt := dalle_prompt prompt; n := 1; size := "1024x1024" |}.

Definition generate (w : world) (req : GenerationRequest) : IO ImagesResponse :=
  λ s, (images_generate w req, record (Requested req) s).

(** Line 82: the caption of the photo. *)
Definition prompt_caption (rating : Z) (appreciation : string) : string :=
  ":art: Here's your coloring sheet!" +:+ LF
    +:+ "Rating: " +:+ str rating +:+ "/10" +:+ LF +:+ appreciation.

(** Line 86: the reply of the [except] branch. *)
Definition prompt_apology (e : exn) : string :=
  "Sorry, something went wrong: " +:+ exn_str e.

(** Lines 48-86. *)
Definition handle_prompt (w : world) (update : Update) : IO unit :=
  match text (message update) with
  | None => raise (AttributeError "'NoneType' object has no attribute 'startswith'")
  | Some message_text =>
    if String.prefix "/" message_text then mret tt
    else
      try_except
        (let user := effective_user update in
         let prompt := message_text in
         logger_info ("Received prompt from user " +:+ str (id user)
                        +:+ ": " +:+ prompt);;
         response ← generate w (generation_request prompt);
         image ← first_item "list" (data response);
         let image_url := url image in
         let rating := randint w 1 10 in
         let appreciation := prompt_appreciation rating in
         reply_photo w image_url (prompt_caption rating appreciation))
        (λ e,
         logger_error ("Error in handle_prompt: " +:+ exn_str e);;
         reply_text w (prompt_apology e))
  end.

(** The local disk: [download_to_drive], [Image.open], [img.save] and
    [os.remove].  A download that raises leaves the disk as it was.
    [img.save] opens the path for writing before it encodes: when the
    encoder raises, a file that was there is left empty and a file that
    was not there is not left behind.  Opening or removing a file that is
    not there raises. *)
Definition download_to_drive (f : File) (path : string) : IO unit :=
  λ s, match remote_content f with
       | Returned content =>
           (Returned tt, record (Wrote path content) (on_disk (<[path := content]>) s))
       | Raised e => (Raised e, s)
       end.

Definition open_image (w : world) (path : string) : IO (Image (pil w)) :=
  λ s, match disk s !! path with
       | Some content => (Image_open (pil w) content, s)
       | None => (Raised (FileNotFoundError path), s)
       end.

Definition save_image (w : world) (img : Image (pil w)) (path format : string) : IO unit :=
  λ s, match save (pil w) img format with
       | Returned content =>
           (Returned tt, record (Wrote path content) (on_disk (<[path := content]>) s))
       | Raised e =>
           match disk s !! path with
           | Some _ => (Raised e, record (Wrote path []) (on_disk (<[path := []]>) s))
           | None => (Raised e, s)
           end
       end.

Definition os_remove (path : string) : IO unit :=
  λ s, match disk s !! path with
       | Some _ => (Returned tt, record (Removed path) (on_disk (delete path) s))
       | None => (Raised (FileNotFoundError path), s)
       end.

(** Lines 110-118: the appreciation message of the submission handler. *)
Definition submission_appreciation (rating : Z) : string :=
  if rating =? 10 then "Excellent work! You've nailed it!"
  else if rating >=? 8 then "Great job! Really impressive!"
  else if rating >=? 6 then "Good effort! Keep it up!"
  else "Nice try! Keep practicing!".

(** Lines 101-102: [if img.mode != 'RGB': img = img.convert('RGB')]. *)
Definition as_RGB (P : PIL) (img : Image P) : Image P :=
  if bool_decide (mode P img ≠ "RGB") then convert P img "RGB" else img.

(** Line 94: the name of the transient file. *)
Definition temp_path (fid : string) : string := "temp_" +:+ fid +:+ ".jpg".

(** Line 121: the confirmation. *)
Definition submission_reply (rating : Z) (appreciation : string) : string :=
  ":white_check_mark: Submission received! Rating: " +:+ str rating +:+ "/10" +:+ LF
    +:+ appreciation +:+ " Points will be awarded upon approval.".

(** Line 128: the reply of the [except] branch. *)
Definition submission_apology : string :=
  "Sorry, something went wrong while processing your submission. Please try again later.".

(** Lines 89-128. *)
Definition handle_submission (w : world) (update : Update) : IO unit :=
  try_except
    (let user := effective_user update in
     photo ← last_item "tuple" (photo (message update));
     file ← lift (get_file w (file_id photo));
     let file_path := temp_path (file_id photo) in
     download_to_drive file file_path;;
     logger_info ("Received submission from user " +:+ str (id user));;
     img ← open_image w file_path;
     (let img := as_RGB (pil w) img in
      save_image w img file_path "JPEG");;
     let rating := randint w 1 10 in
     let appreciation := submission_appreciation rating in
     reply_text w (submission_reply rating appreciation);;
     os_remove file_path)
    (λ e,
     logger_error ("Error in handle_submission: " +:+ exn_str e);;
     reply_text w submission_apology).

(** Lines 130-132: the fallback the framework calls with the exception a
    handler let through. *)
Definition error_handler (e : exn) : IO unit :=
  logger_error "Exception while handling an update:".

(** ** The handler table of [main] *)

(** [filters.PHOTO] and [filters.TEXT]: the message has photo variants,
    the message has a text. *)
Definition filters_PHOTO (m : Message) : bool := bool_decide (photo m ≠ []).

Definition filters_TEXT (m : Message) : bool :=
  match text m with
  | Some t => bool_decide (t ≠ EmptyString)
  | None => false
  end.

(** Lines 140-142, in the order of registration. *)
Definition handlers (w : world) : list ((Message → bool) * (world → Update → IO unit)) :=
  [ (is_start_command w, start);
    (filters_PHOTO, handle_submission);
    (λ m, filters_TEXT m && negb (filters_COMMAND w m), handle_prompt) ].

(** The first handler of the table whose check accepts the update runs. *)
Fixpoint dispatch (table : list ((Message → bool) * (world → Update → IO unit)))
    (w : world) (update : Update) : IO unit :=
  match table with
  | [] => mret tt
  | (check, callback) :: rest =>
      if check (message update) then callback w update
      else dispatch rest w update
  end.

(** One inbound update: what a handler lets through goes to
    [error_handler] (line 145). *)
Definition process_update (w : world) (update : Update) : IO unit :=
  try_except (dispatch (handlers w) w update) error_handler.

(** ** The start-up script *)

(** Where a statement of the script leaves the control. *)
Inductive control (A : Type) : Type :=
| Continue (a : A)
| Throw (e : exn)
| SystemExit (code : Z)
| Serving.
Arguments Continue {A} a.
Arguments Throw {A} e.
Arguments SystemExit {A} code.
Arguments Serving {A}.

Definition Script (A : Type) : Type := list event → control A * list event.

#[export] Instance Script_ret : MRet Script := λ A a log, (Continue a, log).

#[export] Instance Script_bind : MBind Script := λ A B k m log,
  match m log with
  | (Continue a, log') => k a log'
  | (Throw e, log') => (Throw e, log')
  | (SystemExit c, log') => (SystemExit c, log')
  | (Serving, log') => (Serving, log')
  end.

(** [except Exception] does not catch [SystemExit]. *)
Definition except_Exception {A : Type} (body : Script A) (handler : exn → Script A) : Script A :=
  λ log, match body log with
         | (Throw e, log') => handler e log'
         | r => r
         end.

(** [finally]: runs unless the body never gives the control back. *)
Definition finally {A : Type} (body : Script A) (cleanup : Script unit) : Script A :=
  λ log, match body log with
         | (Serving, log') => (Serving, log')
         | (r, log') =>
             match cleanup log' with
             | (Continue _, log'') => (r, log'')
             | (Throw e, log'') => (Throw e, log'')
             | (SystemExit c, log'') => (SystemExit c, log'')
             | (Serving, log'') => (Serving, log'')
             end
         end.

Definition log_line (l : level) (msg : string) : Script unit :=
  λ log, (Continue tt, log ++ [Logged l msg]).

Definition sys_exit {A : Type} (code : Z) : Script A := λ log, (SystemExit code, log).

Definition may_raise (r : option exn) : Script unit :=
  λ log, match r with None => (Continue tt, log) | Some e => (Throw e, log) end.

Definition evaluate {A : Type} (r : outcome A) : Script A :=
  λ log, match r with Returned a => (Continue a, log) | Raised e => (Throw e, log) end.

(** What the start-up depends on. *)
Record boot := {
  (** line 32: [openai.api_key = OPENAI_API_KEY] *)
  assign_api_key : option exn;
  (** line 137: [Application.builder().token(BOT_TOKEN).build()] *)
  application_build : option exn;
  (** line 151: [int(os.environ.get("PORT", 8443))] *)
  port : outcome Z;
  (** line 149: [run_webhook] serves until the process is terminated from
      outside ([None]) or raises *)
  run_webhook : option exn
}.

(** Lines 31-36. *)
Definition initialize_clients (b : boot) : Script unit :=
  except_Exception
    (may_raise (assign_api_key b);;
     log_line INFO "Successfully initialized clients")
    (λ e,
     log_line ERROR ("Failed to initialize clients: " +:+ exn_str e);;
     sys_exit 1).

(** Lines 134-157. *)
Definition main (b : boot) : Script unit :=
  finally
    (except_Exception
       (may_raise (application_build b);;
        log_line INFO "Starting bot...";;
        _ ← evaluate (port b);
        match run_webhook b with
        | None => (λ log, (Serving, log))
        | Some e => may_raise (Some e)
        end)
       (λ e, log_line ERROR ("Bot stopped due to error: " +:+ exn_str e)))
    (log_line INFO "Bot disconnected").

(** How the process ends. *)
Inductive termination :=
| Exit (code : Z)
| RunsUntilTerminated.

(** The whole script: the module level, then [main()] (lines 159-160).
    An exception nobody catches ends the interpreter with code 1. *)
Definition bot_py (b : boot) : termination * list event :=
  match (initialize_clients b;; main b) [] with
  | (Continue _, log) => (Exit 0, log)
  | (Throw _, log) => (Exit 1, log)
  | (SystemExit c, log) => (Exit c, log)
  | (Serving, log) => (RunsUntilTerminated, log)
  end.

(** ** Reading a journal *)

(** The messages the transport delivered, the messages handed to it, and
    the requests made to the provider. *)
Definition delivered (evs : list event) : list outbound :=
  omap (λ ev, match ev with Delivered m => Some m | _ => None end) evs.

Definition attempted (evs : list event) : list outbound :=
  omap (λ ev, match ev with
              | Delivered m | SendFailed m _ => Some m
              | _ => None
              end) evs.

Definition requested (evs : list event) : list GenerationRequest :=
  omap (λ ev, match ev with Requested req => Some req | _ => None end) evs.

Definition is_photo (m : outbound) : bool :=
  match m with photo_message _ _ => true | text_message _ => false end.

(** [needle in hay] *)
Fixpoint contains (needle hay : string) : bool :=
  String.prefix needle hay ||
  match hay with
  | EmptyString => false
  | String _ rest => contains needle rest
  end.

(** ** A small world to run the handlers in *)

Module Toy.

(** An image file is a tag for the mode followed by the raster; the
    encoder writes three-channel files only. *)
Definition decode (content : bytes) : outcome (string * bytes) :=
  match content with
  | "R"%byte :: raster => Returned ("RGB", raster)
  | "P"%byte :: raster => Returned ("P", raster)
  | "L"%byte :: raster => Returned ("L", raster)
  | _ => Raised (Exception "UnidentifiedImageError" "cannot identify image file")
  end.

Definition encode (img : string * bytes) (format : string) : outcome bytes :=
  if bool_decide (img.1 = "RGB") then Returned ("R"%byte :: img.2)
  else Raised (Exception "OSError" ("cannot write mode " +:+ img.1 +:+ " as " +:+ format)).

Definition codec : PIL :=
  {| Image := string * bytes;
     Image_open := decode;
     mode := fst;
     convert := λ img m, (m, img.2);
     save := encode |}.

Definition one_image : ImagesResponse :=
  {| data := [ {| url := "https://images.example/sheet.png" |} ] |}.

Definition NetworkError : exn := Exception "NetworkError" "Connection refused".

(** The provider answers, the transport delivers, files download. *)
Definition fair (seed : Z) (content : bytes) : world :=
  {| images_generate := λ _, Returned one_image;
     entropy := seed;
     transport := λ _, None;
     get_file := λ _, Returned {| remote_content := Returned content |};
     pil := codec;
     filters_COMMAND := λ m, match text m with
                             | Some t => String.prefix "/" t
                             | None => false
                             end;
     is_start_command := λ m, bool_decide (text m = Some "/start") |}.

(** The same with the provider down. *)
Definition provider_down (seed : Z) : world :=
  {| images_generate := λ _, Raised NetworkError;
     entropy := seed;
     transport := λ _, None;
     get_file := get_file (fair seed []);
     pil := codec;
     filters_COMMAND := filters_COMMAND (fair seed []);
     is_start_command := is_start_command (fair seed []) |}.

(** The same with the transport down as well. *)
Definition offline (seed : Z) : world :=
  {| images_generate := λ _, Raised NetworkError;
     entropy := seed;
     transport := λ _, Some NetworkError;
     get_file := get_file (fair seed []);
     pil := codec;
     filters_COMMAND := filters_COMMAND (fair seed []);
     is_start_command := is_start_command (fair seed []) |}.

Definition says (t : string) : Update :=
  {| effective_user := {| id := 42 |};
     message := {| text := Some t; photo := [] |} |}.

Definition uploads (variants : list string) : Update :=
  {| effective_user := {| id := 42 |};
     message := {| text := None; photo := (λ f, {| file_id := f |}) <$> variants |} |}.

Definition fresh : state := {| disk := ∅; journal := [] |}.

End Toy.

(** ** What the statements are about *)

(** What the handler expects of PIL: [convert] yields an image of the
    mode asked for, and a JPEG file written from a three-channel image
    decodes to a three-channel image. *)
Record PIL_laws (P : PIL) : Prop := {
  convert_mode : ∀ (img : Image P) (m : string), mode P (convert P img m) = m;
  jpeg_round_trip : ∀ (img : Image P) (content : bytes),
    mode P img = "RGB" →
    save P img "JPEG" = Returned content →
    ∃ img', Image_open P content = Returned img' ∧ mode P img' = "RGB"
}.

(** A submission passes the normaliser: it has a variant, the file is
    fetched and downloaded, it decodes and it is encoded again. *)
Definition normalises (w : world) (update : Update) : Prop :=
  ∃ (p : PhotoSize) (file : File) (content : bytes) (img : Image (pil w))
    (jpeg : bytes),
    last (photo (message update)) = Some p ∧
    get_file w (file_id p) = Returned file ∧
    remote_content file = Returned content ∧
    Image_open (pil w) content = Returned img ∧
    save (pil w) (as_RGB (pil w) img) "JPEG" = Returned jpeg.

(** Three start-ups. *)
Module Boot.

Definition InvalidToken : exn :=
  Exception "InvalidToken" "You must pass the token you received from https://t.me/Botfather!".

(** Every step of the start-up succeeds. *)
Definition healthy : boot :=
  {| assign_api_key := None; application_build := None;
     port := Returned 8443; run_webhook := None |}.

(** The transport client cannot be built. *)
Definition no_token : boot :=
  {| assign_api_key := None; application_build := Some InvalidToken;
     port := Returned 8443; run_webhook := None |}.

(** The assignment of the API key raises. *)
Definition no_client : boot :=
  {| assign_api_key := Some (Exception "RuntimeError" "no client");
     application_build := None; port := Returned 8443; run_webhook := None |}.

End Boot.

(** The two texts of [start] (lines 42 and 45). *)
Definition welcome_text : string :=
  ":wave: Welcome to the Weekly Coloring Challenge!" +:+ LF +:+ LF
    +:+ "Send me a prompt like:" +:+ LF
    +:+ "`A cat riding a bike` :bike::cat:".

Definition start_apology : string :=
  "Sorry, something went wrong. Please try again later.".

(** More worlds: a provider answer, a transport and a file server of
    one's choice around the toy codec. *)
Module Cases.

Definition world_with (answer : outcome ImagesResponse)
    (send : outbound → option exn) (fetch : string → outcome File)
    (seed : Z) : world :=
  {| images_generate := λ _, answer;
     entropy := seed;
     transport := send;
     get_file := fetch;
     pil := Toy.codec;
     filters_COMMAND := filters_COMMAND (Toy.fair seed []);
     is_start_command := is_start_command (Toy.fair seed []) |}.

Definition delivers : outbound → option exn := λ _, None.

(** Photos are refused, texts go through. *)
Definition refuses_photos : outbound → option exn :=
  λ m, if is_photo m then Some (Exception "BadRequest" "Wrong file identifier/HTTP URL specified")
       else None.

Definition serves (content : bytes) : string → outcome File :=
  λ _, Returned {| remote_content := Returned content |}.

Definition file_gone : string → outcome File :=
  λ _, Raised (Exception "BadRequest" "File is too big").

Definition no_image : ImagesResponse := {| data := [] |}.

Definition two_images : ImagesResponse :=
  {| data := [ {| url := "https://images.example/first.png" |};
               {| url := "https://images.example/second.png" |} ] |}.

End Cases.

(** A codec like the toy one whose encoder refuses a raster of more
    than two bytes, as a JPEG encoder refuses an image beyond its largest
    dimension. *)
Module Small.

Definition encode (img : string * bytes) (format : string) : outcome bytes :=
  if bool_decide (img.1 = "RGB") then
    if bool_decide (length img.2 ≤ 2)%nat then Returned ("R"%byte :: img.2)
    else Raised (Exception "ValueError" "Maximum supported image dimension is 65500 pixels")
  else Raised (Exception "OSError" ("cannot write mode " +:+ img.1 +:+ " as " +:+ format)).

Definition codec : PIL :=
  {| Image := string * bytes;
     Image_open := Toy.decode;
     mode := fst;
     convert := λ img m, (m, img.2);
     save := encode |}.

(** The provider answers, the transport delivers, files download. *)
Definition fair (seed : Z) (content : bytes) : world :=
  {| images_generate := λ _, Returned Toy.one_image;
     entropy := seed;
     transport := λ _, None;
     get_file := λ _, Returned {| remote_content := Returned content |};
     pil := codec;
     filters_COMMAND := filters_COMMAND (Toy.fair seed []);
     is_start_command := is_start_command (Toy.fair seed []) |}.

End Small.

(** ** Updates of any kind

    [Update] is an update whose [update.message] is set.  The framework
    also hands the handlers edited messages and channel posts: their
    message is [update.effective_message], on which the filters and
    [CommandHandler] decide, while [update.message] is [None]; a channel
    post has no [effective_user] either, and [CommandHandler] does not
    accept it. *)
Inductive Inbound :=
| message_update (update : Update)
| edited_update (user : User) (edited : Message)
| channel_update (post : Message).

Definition effective_message (i : Inbound) : Message :=
  match i with
  | message_update update => message update
  | edited_update _ edited => edited
  | channel_update post => post
  end.

(** The exception of an attribute read on [None]. *)
Definition NoneType_has_no (attribute : string) : exn :=
  AttributeError ("'NoneType' object has no attribute '" +:+ attribute +:+ "'").

(** Lines 39-45 on any update: without [update.message] both
    [reply_text] of lines 42 and 45 fail on [None], the second one outside
    any [try]; a channel post fails on [effective_user.id] first. *)
Definition start_any (w : world) (i : Inbound) : IO unit :=
  match i with
  | message_update update => start w update
  | edited_update user _ =>
      try_except
        (logger_info ("Start command received from user " +:+ str (id user));;
         raise (NoneType_has_no "reply_text"))
        (λ e,
         logger_error ("Error in start handler: " +:+ exn_str e);;
         raise (NoneType_has_no "reply_text"))
  | channel_update _ =>
      try_except
        (raise (NoneType_has_no "id"))
        (λ e,
         logger_error ("Error in start handler: " +:+ exn_str e);;
         raise (NoneType_has_no "reply_text"))
  end.

(** Lines 48-86 on any update: without [update.message] the test of
    line 49, outside the [try], fails on [None]. *)
Definition handle_prompt_any (w : world) (i : Inbound) : IO unit :=
  match i with
  | message_update update => handle_prompt w update
  | edited_update _ _ | channel_update _ => raise (NoneType_has_no "text")
  end.

(** Lines 89-128 on any update: without [update.message] line 92 fails
    on [None] inside the [try], and so does the [reply_text] of line 128,
    outside it. *)
Definition handle_submission_any (w : world) (i : Inbound) : IO unit :=
  match i with
  | message_update update => handle_submission w update
  | edited_update _ _ | channel_update _ =>
      try_except
        (raise (NoneType_has_no "photo"))
        (λ e,
         logger_error ("Error in handle_submission: " +:+ exn_str e);;
         raise (NoneType_has_no "reply_text"))
  end.

(** Lines 140-142 on any update: the checks read the effective message,
    and the command handler accepts messages and edited messages only. *)
Definition inbound_handlers (w : world)
    : list ((Inbound → bool) * (world → Inbound → IO unit)) :=
  [ (λ i, match i with
          | channel_update _ => false
          | _ => is_start_command w (effective_message i)
          end, start_any);
    (λ i, filters_PHOTO (effective_message i), handle_submission_any);
    (λ i, filters_TEXT (effective_message i)
          && negb (filters_COMMAND w (effective_message i)), handle_prompt_any) ].

Fixpoint dispatch_any (table : list ((Inbound → bool) * (world → Inbound → IO unit)))
    (w : world) (i : Inbound) : IO unit :=
  match table with
  | [] => mret tt
  | (check, callback) :: rest =>
      if check i then callback w i else dispatch_any rest w i
  end.

Definition process_any (w : world) (i : Inbound) : IO unit :=
  try_except (dispatch_any (inbound_handlers w) w i) error_handler.

(** ** Basic facts *)

Lemma randint_range (w : world) (a b : Z) : a ≤ b → a ≤ randint w a b ≤ b.
Proof.
  intros Hab. unfold randint.
  pose proof (Z.mod_pos_bound (entropy w) (b - a + 1)). lia.
Qed.

Lemma rating_range (w : world) : 1 ≤ randint w 1 10 ≤ 10.
Proof. apply randint_range. lia. Qed.

Lemma prefix_append (a b : string) : String.prefix a (a +:+ b) = true.
Proof.
  induction a as [|c a IH].
  - by destruct b.
  - change (String.prefix (String c a) (String c (a +:+ b)) = true). simpl.
    destruct (ascii_dec c c) as [_|Hc]; [exact IH | by destruct Hc].
Qed.

Lemma prefix_slash (rest : string) : String.prefix "/" (String "/" rest) = true.
Proof. by destruct rest. Qed.

Lemma prefix_slash_inv (t : string) :
  String.prefix "/" t = true → ∃ rest, t = String "/" rest.
Proof.
  destruct t as [|c rest]; [intros [=] |].
  change (String.prefix "/" (String c rest))
    with (if ascii_dec "/" c then String.prefix EmptyString rest else false).
  destruct (ascii_dec "/" c) as [<-|]; [eauto | intros [=]].
Qed.

Lemma contains_prefix (needle hay : string) :
  String.prefix needle hay = true → contains needle hay = true.
Proof. intros H. destruct hay; cbn [contains]; rewrite H; reflexivity. Qed.

Lemma contains_head (needle post : string) :
  contains needle (needle +:+ post) = true.
Proof. apply contains_prefix, prefix_append. Qed.

Lemma contains_skip (needle pre hay : string) :
  contains needle hay = true → contains needle (pre +:+ hay) = true.
Proof.
  intros H. induction pre as [|c pre IH]; [exact H |].
  change (String c pre +:+ hay) with (String c (pre +:+ hay)).
  cbn [contains]. rewrite IH. apply orb_true_r.
Qed.

Lemma append_empty_r (a : string) : a +:+ EmptyString = a.
Proof.
  induction a as [|c a IH]; [reflexivity |].
  change (String c (a +:+ EmptyString) = String c a). by rewrite IH.
Qed.

Lemma contains_self (needle : string) : contains needle needle = true.
Proof.
  rewrite <- (append_empty_r needle) at 2. apply contains_head.
Qed.

#[global] Arguments randint : simpl never.
#[global] Arguments str : simpl never.
#[global] Arguments prompt_caption : simpl never.
#[global] Arguments prompt_apology : simpl never.
#[global] Arguments prompt_appreciation : simpl never.
#[global] Arguments submission_appreciation : simpl never.
#[global] Arguments submission_reply : simpl never.
#[global] Arguments submission_apology : simpl never.
#[global] Arguments generation_request : simpl never.
#[global] Arguments temp_path : simpl never.
#[global] Arguments record : simpl never.
#[global] Arguments as_RGB : simpl never.
#[global] Arguments contains : simpl never.

(** Unfolding a handler down to the oracles. *)
Ltac run :=
  unfold start, handle_prompt, handle_submission, process_update, error_handler,
    try_except, generate, first_item, last_item, reply_photo, reply_text, send,
    logger_info, logger_error, raise, lift, download_to_drive, open_image,
    save_image, os_remove, mbind, IO_bind, mret, IO_ret;
  simpl.

(** The journal after a run is the journal before it followed by the
    events of the run. *)
Ltac journal_suffix :=
  cbn [disk journal record on_disk]; rewrite <- ?app_assoc; cbn [app];
  reflexivity.

(** Case analysis on every oracle a run consults. *)
Ltac oracle_cases :=
  repeat first
         [ progress simpl
         | rewrite lookup_insert_eq
         | match goal with
          | |- context [match ?x with _ => _ end] =>
              lazymatch x with
              | context [match _ with _ => _ end] => fail
              | _ => destruct x eqn:?
              end
           end ].

Ltac effects_found :=
  simpl; do 3 eexists;
  (split; [f_equal; unfold record, on_disk; simpl; f_equal; journal_suffix |]);
  split; reflexivity.

(** Neither [start] nor the submission handler calls the provider or
    sends a photo. *)
Lemma start_effects (w : world) (update : Update) (s : state) :
  ∃ r d evs,
    start w update s = (r, {| disk := d; journal := journal s ++ evs |}) ∧
    requested evs = [] ∧ filter is_photo (attempted evs) = [].
Proof. run. oracle_cases; effects_found. Qed.

Lemma handle_submission_effects (w : world) (update : Update) (s : state) :
  ∃ r d evs,
    handle_submission w update s = (r, {| disk := d; journal := journal s ++ evs |}) ∧
    requested evs = [] ∧ filter is_photo (attempted evs) = [].
Proof. run. oracle_cases; effects_found. Qed.

(** ** The appreciation message *)

(** C1: the appreciation message is a function of the score alone and
    the same function in the prompt handler and in the submission
    handler; on the scores 1 to 10 it is the "Excellent" text at 10, the
    "Great job" text at 8 and 9, the "Good effort" text at 6 and 7 and the
    "Nice try" text from 1 to 5. *)
Theorem appreciation_mapping (s : Z) :
  1 ≤ s ≤ 10 →
  prompt_appreciation s = submission_appreciation s ∧
  (s = 10 → prompt_appreciation s = "Excellent work! You've nailed it!") ∧
  (s = 8 ∨ s = 9 → prompt_appreciation s = "Great job! Really impressive!") ∧
  (s = 6 ∨ s = 7 → prompt_appreciation s = "Good effort! Keep it up!") ∧
  (1 ≤ s ≤ 5 → prompt_appreciation s = "Nice try! Keep practicing!").
Proof.
  intros Hs. split; [reflexivity |].
  unfold prompt_appreciation.
  destruct (Z.eqb_spec s 10) as [->|H10].
  { repeat split; intros; (reflexivity || lia). }
  destruct (Z.geb_spec s 8) as [H8|H8].
  { repeat split; intros; (reflexivity || lia). }
  destruct (Z.geb_spec s 6) as [H6|H6];
    repeat split; intros; (reflexivity || lia).
Qed.

Lemma appreciation_mapping_witness :
  1 ≤ 9 ≤ 10 ∧
  prompt_appreciation 9 = submission_appreciation 9 ∧
  prompt_appreciation 9 = "Great job! Really impressive!".
Proof.
  assert (H : 1 ≤ 9 ≤ 10) by lia.
  destruct (appreciation_mapping 9 H) as (Hsame & _ & Hgreat & _).
  split; [exact H |]. split; [exact Hsame |]. apply Hgreat. right. reflexivity.
Defined.

(** The thresholds are tried from the top whatever the integer. *)
Lemma appreciation_order (s : Z) :
  submission_appreciation s =
    if decide (s = 10) then "Excellent work! You've nailed it!"
    else if decide (8 ≤ s) then "Great job! Really impressive!"
    else if decide (6 ≤ s) then "Good effort! Keep it up!"
    else "Nice try! Keep practicing!".
Proof.
  unfold submission_appreciation.
  destruct (Z.eqb_spec s 10), (Z.geb_spec s 8), (Z.geb_spec s 6);
    repeat case_decide; (reflexivity || lia).
Qed.

(** ** The prompt handler *)



(** C7, as the specification words it, fails: on the text "cat" the
    prompt that reaches the provider starts with "Black and white", not
    with "black-and-white". *)
Lemma forwarded_prompt_not_hyphenated :
  requested (journal (handle_prompt (Toy.fair 0 []) (Toy.says "cat") Toy.fresh).2)
    = [ {| model := "dall-e-3";
           prompt := "Black and white line art of: cat, suitable for coloring book";
           n := 1; size := "1024x1024" |} ] ∧
  "Black and white line art of: cat, suitable for coloring book"
    ≠ "black-and-white line art of: " +:+ "cat" +:+ ", suitable for coloring book".
Proof. split; [reflexivity | discriminate]. Qed.

(** C7, amended: for a text [t] that does not start with the command
    prefix, the handler makes one request to the provider, for model
    "dall-e-3", one image of 1024x1024, and its prompt is "Black and white
    line art of: " followed by [t] followed by
    ", suitable for coloring book". *)
Theorem forwarded_prompt (w : world) (update : Update) (t : string) (s : state) :
  text (message update) = Some t →
  String.prefix "/" t = false →
  ∃ r evs,
    handle_prompt w update s = (r, {| disk := disk s; journal := journal s ++ evs |}) ∧
    requested evs
      = [ {| model := "dall-e-3";
             prompt := "Black and white line art of: " +:+ t
                         +:+ ", suitable for coloring book";
             n := 1; size := "1024x1024" |} ].
Proof.
  intros Htext Hcmd. run. rewrite Htext, Hcmd. run.
  destruct (images_generate w (generation_request t)) as [[[|image rest]]|e]; simpl.
  - destruct (transport w (text_message _)) as [e'|];
      do 2 eexists; (split; [f_equal; unfold record; f_equal; journal_suffix |]);
      reflexivity.
  - destruct (transport w (photo_message _ _)) as [e'|].
    + destruct (transport w (text_message _)) as [e''|];
        do 2 eexists; (split; [f_equal; unfold record; f_equal; journal_suffix |]);
        reflexivity.
    + do 2 eexists; (split; [f_equal; unfold record; f_equal; journal_suffix |]);
        reflexivity.
  - destruct (transport w (text_message _)) as [e'|];
      do 2 eexists; (split; [f_equal; unfold record; f_equal; journal_suffix |]);
      reflexivity.
Qed.

Lemma forwarded_prompt_witness :
  ∃ r evs,
    handle_prompt (Toy.fair 0 []) (Toy.says "a cat riding a bike") Toy.fresh
      = (r, {| disk := ∅; journal := evs |}) ∧
    requested evs
      = [ {| model := "dall-e-3";
             prompt := "Black and white line art of: a cat riding a bike, suitable for coloring book";
             n := 1; size := "1024x1024" |} ].
Proof.
  exact (forwarded_prompt (Toy.fair 0 []) (Toy.says "a cat riding a bike")
           "a cat riding a bike" Toy.fresh eq_refl eq_refl).
Defined.




(** C6: a text whose first character is the command prefix never sets
    the relay going.  The handler returns at once, with no log line, no
    request to the provider and no outbound message; and whichever
    handler the table of [main] picks for the update, processing it makes
    no request to the provider and sends no photo. *)
Theorem command_text_is_ignored (w : world) (update : Update) (rest : string)
    (s : state) :
  text (message update) = Some (String "/" rest) →
  handle_prompt w update s = (Returned tt, s) ∧
  ∃ evs,
    (process_update w update s).1 = Returned tt ∧
    journal (process_update w update s).2 = journal s ++ evs ∧
    requested evs = [] ∧
    filter is_photo (attempted evs) = [].
Proof.
  intros Htext.
  assert (Hprompt : handle_prompt w update s = (Returned tt, s)).
  { unfold handle_prompt. rewrite Htext, prefix_slash. reflexivity. }
  split; [exact Hprompt |].
  unfold process_update, try_except, handlers, dispatch.
  destruct (is_start_command w (message update)).
  { destruct (start_effects w update s) as (r & d & evs & -> & Hreq & Hphoto).
    destruct r as [[]|e]; run.
    - exists evs. auto.
    - exists (evs ++ [Logged ERROR "Exception while handling an update:"]).
      unfold record; simpl. rewrite <- app_assoc.
      unfold requested, attempted in *. rewrite !omap_app, Hreq.
      rewrite filter_app, Hphoto. auto. }
  destruct (filters_PHOTO (message update)).
  { destruct (handle_submission_effects w update s)
      as (r & d & evs & -> & Hreq & Hphoto).
    destruct r as [[]|e]; run.
    - exists evs. auto.
    - exists (evs ++ [Logged ERROR "Exception while handling an update:"]).
      unfold record; simpl. rewrite <- app_assoc.
      unfold requested, attempted in *. rewrite !omap_app, Hreq.
      rewrite filter_app, Hphoto. auto. }
  destruct (filters_TEXT (message update) && negb (filters_COMMAND w (message update))).
  - rewrite Hprompt. exists []. rewrite app_nil_r. auto.
  - exists []. rewrite app_nil_r. auto.
Qed.

Lemma command_text_is_ignored_witness :
  handle_prompt (Toy.fair 0 []) (Toy.says "/start") Toy.fresh = (Returned tt, Toy.fresh) ∧
  ∃ evs,
    (process_update (Toy.fair 0 []) (Toy.says "/start") Toy.fresh).1 = Returned tt ∧
    journal (process_update (Toy.fair 0 []) (Toy.says "/start") Toy.fresh).2 = evs ∧
    requested evs = [] ∧
    filter is_photo (attempted evs) = [].
Proof.
  exact (command_text_is_ignored (Toy.fair 0 []) (Toy.says "/start") "start"
           Toy.fresh eq_refl).
Defined.

(** ** The submission handler *)

Lemma Toy_codec_laws : PIL_laws Toy.codec.
Proof.
  split.
  - reflexivity.
  - intros [m raster] content Hmode. simpl in *. subst m.
    intros [= <-]. eexists. split; reflexivity.
Qed.

Lemma as_RGB_mode (P : PIL) (img : Image P) :
  PIL_laws P → mode P (as_RGB P img) = "RGB".
Proof.
  intros HP. unfold as_RGB. case_bool_decide as Hmode.
  - apply (convert_mode P HP).
  - destruct (decide (mode P img = "RGB")); [done | contradiction].
Qed.

(** The run of the submission handler on a submission that decodes and
    is encoded again. *)
Lemma handle_submission_normalised (w : world) (update : Update) (s : state)
    (p : PhotoSize) (file : File) (content : bytes) (img : Image (pil w))
    (jpeg : bytes) :
  last (photo (message update)) = Some p →
  get_file w (file_id p) = Returned file →
  remote_content file = Returned content →
  Image_open (pil w) content = Returned img →
  save (pil w) (as_RGB (pil w) img) "JPEG" = Returned jpeg →
  let path := temp_path (file_id p) in
  let rating := randint w 1 10 in
  let reply := text_message (submission_reply rating (submission_appreciation rating)) in
  let apology := text_message submission_apology in
  let normalised :=
    [ Wrote path content;
      Logged INFO ("Received submission from user " +:+ str (id (effective_user update)));
      Wrote path jpeg ] in
  handle_submission w update s =
    match transport w reply with
    | None =>
        (Returned tt,
         {| disk := delete path (<[path := jpeg]> (<[path := content]> (disk s)));
            journal := journal s ++ normalised ++ [Delivered reply; Removed path] |})
    | Some e =>
        let failed :=
          normalised ++
            [SendFailed reply e;
             Logged ERROR ("Error in handle_submission: " +:+ exn_str e)] in
        match transport w apology with
        | None =>
            (Returned tt,
             {| disk := <[path := jpeg]> (<[path := content]> (disk s));
                journal := journal s ++ failed ++ [Delivered apology] |})
        | Some e' =>
            (Raised e',
             {| disk := <[path := jpeg]> (<[path := content]> (disk s));
                journal := journal s ++ failed ++ [SendFailed apology e'] |})
        end
    end.
Proof.
  intros Hlast Hfile Hcontent Himg Hsave path rating reply apology normalised.
  run. rewrite Hlast. simpl. rewrite Hfile. simpl. rewrite Hcontent. simpl.
  fold path. rewrite lookup_insert_eq, Himg. simpl. rewrite Hsave. simpl.
  fold rating. fold reply. fold apology.
  destruct (transport w reply) as [e|]; simpl.
  - destruct (transport w apology) as [e'|]; simpl;
      unfold record, on_disk; simpl; do 2 f_equal; journal_suffix.
  - rewrite lookup_insert_eq. simpl.
    unfold record, on_disk; simpl; do 2 f_equal; journal_suffix.
Qed.



Lemma Small_codec_laws : PIL_laws Small.codec.
Proof.
  split.
  - reflexivity.
  - intros [m raster] content Hmode. simpl in *. subst m.
    unfold Small.encode. simpl. case_bool_decide; [| discriminate].
    intros [= <-]. eexists. split; reflexivity.
Qed.

(** C9, as the specification words it, fails: two uploads that both
    decode, under the same state of the random generator, the same
    transport and the same codec, get different replies when the encoder
    accepts the one and refuses the other: the first gets the confirmation
    for the score drawn, the second the apology. *)
Lemma reply_depends_on_encoder :
  let w1 := Small.fair 4 ["R"%byte; "a"%byte] in
  let w2 := Small.fair 4 ["R"%byte; "a"%byte; "b"%byte; "c"%byte] in
  let u := Toy.uploads ["AgAD"] in
  Image_open (pil w1) ["R"%byte; "a"%byte] = Returned ("RGB", ["a"%byte]) ∧
  Image_open (pil w2) ["R"%byte; "a"%byte; "b"%byte; "c"%byte]
    = Returned ("RGB", ["a"%byte; "b"%byte; "c"%byte]) ∧
  randint w1 1 10 = 5 ∧ randint w2 1 10 = 5 ∧
  attempted (journal (handle_submission w1 u Toy.fresh).2)
    = [text_message (submission_reply 5 (submission_appreciation 5))] ∧
  attempted (journal (handle_submission w2 u Toy.fresh).2)
    = [text_message submission_apology].
Proof. repeat split. Qed.

(** C9, amended: the reply to a submission does not depend on the image
    among the submissions that pass the normaliser.  For two submissions
    that both decode and are both encoded again without an exception, and
    the same state of the random generator, the score is the same and the
    first message each run hands to the transport is the same confirmation
    for that score; when the transport behaves alike for both, the two
    runs end alike and hand over and deliver the same messages. *)
Theorem reply_independent_of_image (w1 w2 : world) (u1 u2 : Update)
    (s1 s2 : state) :
  normalises w1 u1 →
  normalises w2 u2 →
  entropy w1 = entropy w2 →
  let rating := randint w1 1 10 in
  let reply :=
    text_message (submission_reply rating (submission_appreciation rating)) in
  randint w2 1 10 = rating ∧
  ∃ r1 r2 s1' s2' evs1 evs2 rest1 rest2,
    handle_submission w1 u1 s1 = (r1, s1') ∧
    handle_submission w2 u2 s2 = (r2, s2') ∧
    journal s1' = journal s1 ++ evs1 ∧
    journal s2' = journal s2 ++ evs2 ∧
    attempted evs1 = reply :: rest1 ∧
    attempted evs2 = reply :: rest2 ∧
    ((∀ m, transport w1 m = transport w2 m) →
     r1 = r2 ∧ attempted evs1 = attempted evs2 ∧ delivered evs1 = delivered evs2).
Proof.
  intros (p1 & f1 & c1 & i1 & j1 & Hl1 & Hf1 & Hc1 & Hi1 & Hs1)
         (p2 & f2 & c2 & i2 & j2 & Hl2 & Hf2 & Hc2 & Hi2 & Hs2)
         Hentropy rating reply.
  assert (Hrating : randint w2 1 10 = rating).
  { unfold rating, randint. by rewrite Hentropy. }
  split; [exact Hrating |].
  rewrite (handle_submission_normalised w1 u1 s1 _ _ _ _ _ Hl1 Hf1 Hc1 Hi1 Hs1).
  rewrite (handle_submission_normalised w2 u2 s2 _ _ _ _ _ Hl2 Hf2 Hc2 Hi2 Hs2).
  simpl. rewrite Hrating. fold rating. fold reply.
  destruct (transport w1 reply) as [e1|] eqn:Hreply1,
           (transport w1 (text_message submission_apology)) as [a1|] eqn:Hsorry1,
           (transport w2 reply) as [e2|] eqn:Hreply2,
           (transport w2 (text_message submission_apology)) as [a2|] eqn:Hsorry2;
    do 8 eexists;
    (split; [reflexivity |]); (split; [reflexivity |]);
    (split; [reflexivity |]); (split; [reflexivity |]);
    (split; [reflexivity |]); (split; [reflexivity |]);
    intros Htransport;
    rewrite Htransport, Hreply2 in Hreply1;
    rewrite Htransport, Hsorry2 in Hsorry1;
    simplify_eq; repeat split.
Qed.

Lemma reply_independent_of_image_witness :
  normalises (Toy.fair 17 ["P"%byte; "a"%byte]) (Toy.uploads ["AgAD"]) ∧
  normalises (Toy.fair 17 ["R"%byte; "z"%byte; "z"%byte]) (Toy.uploads ["s"; "BQAD"]) ∧
  ∃ r1 r2 s1' s2' evs1 evs2 rest1 rest2,
    handle_submission (Toy.fair 17 ["P"%byte; "a"%byte]) (Toy.uploads ["AgAD"]) Toy.fresh
      = (r1, s1') ∧
    handle_submission (Toy.fair 17 ["R"%byte; "z"%byte; "z"%byte])
                      (Toy.uploads ["s"; "BQAD"]) Toy.fresh = (r2, s2') ∧
    journal s1' = evs1 ∧
    journal s2' = evs2 ∧
    attempted evs1
      = text_message (submission_reply 8 (submission_appreciation 8)) :: rest1 ∧
    attempted evs2
      = text_message (submission_reply 8 (submission_appreciation 8)) :: rest2.
Proof.
  assert (H1 : normalises (Toy.fair 17 ["P"%byte; "a"%byte]) (Toy.uploads ["AgAD"])).
  { exists {| file_id := "AgAD" |}, {| remote_content := Returned ["P"%byte; "a"%byte] |},
      ["P"%byte; "a"%byte], ("P", ["a"%byte]), ["R"%byte; "a"%byte].
    repeat split. }
  assert (H2 : normalises (Toy.fair 17 ["R"%byte; "z"%byte; "z"%byte])
                          (Toy.uploads ["s"; "BQAD"])).
  { exists {| file_id := "BQAD" |},
      {| remote_content := Returned ["R"%byte; "z"%byte; "z"%byte] |},
      ["R"%byte; "z"%byte; "z"%byte], ("RGB", ["z"%byte; "z"%byte]),
      ["R"%byte; "z"%byte; "z"%byte].
    repeat split. }
  split; [exact H1 |]. split; [exact H2 |].
  destruct (reply_independent_of_image _ _ _ _ Toy.fresh Toy.fresh H1 H2 eq_refl)
    as (_ & r1 & r2 & s1' & s2' & evs1 & evs2 & rest1 & rest2
          & Hrun1 & Hrun2 & Hj1 & Hj2 & Ha1 & Ha2 & _).
  exists r1, r2, s1', s2', evs1, evs2, rest1, rest2. repeat split; assumption.
Defined.

(** The transient file is removed when the whole [try] block succeeds. *)
Lemma transient_file_removed_on_success (w : world) (update : Update) (s : state)
    (p : PhotoSize) (file : File) (content : bytes) (img : Image (pil w))
    (jpeg : bytes) :
  last (photo (message update)) = Some p →
  get_file w (file_id p) = Returned file →
  remote_content file = Returned content →
  Image_open (pil w) content = Returned img →
  save (pil w) (as_RGB (pil w) img) "JPEG" = Returned jpeg →
  transport w (text_message
                 (submission_reply (randint w 1 10)
                    (submission_appreciation (randint w 1 10)))) = None →
  disk (handle_submission w update s).2 !! temp_path (file_id p) = None.
Proof.
  intros Hlast Hfile Hcontent Himg Hsave Hsend.
  rewrite (handle_submission_normalised w update s p file content img jpeg
             Hlast Hfile Hcontent Himg Hsave).
  simpl. rewrite Hsend. simpl. apply lookup_delete_eq.
Qed.

(** It stays on the disk when the download succeeds and the file does
    not decode: the [except] branch does not remove it. *)
Lemma transient_file_kept_on_decode_failure (w : world) (update : Update)
    (s : state) (p : PhotoSize) (file : File) (content : bytes) (e : exn) :
  last (photo (message update)) = Some p →
  get_file w (file_id p) = Returned file →
  remote_content file = Returned content →
  Image_open (pil w) content = Raised e →
  disk (handle_submission w update s).2 !! temp_path (file_id p) = Some content.
Proof.
  intros Hlast Hfile Hcontent Himg.
  run. rewrite Hlast. simpl. rewrite Hfile. simpl. rewrite Hcontent. simpl.
  rewrite lookup_insert_eq, Himg. simpl.
  destruct (transport w (text_message submission_apology)); simpl;
    apply lookup_insert_eq.
Qed.

(** C2 does not hold of the code: a submission of one variant, "AgAD",
    whose content is not an image, is answered with the apology and
    leaves temp_AgAD.jpg on the disk. *)
Theorem transient_file_left_behind :
  let w := Toy.fair 0 ["n"%byte; "o"%byte] in
  let run := handle_submission w (Toy.uploads ["AgAD"]) Toy.fresh in
  Image_open (pil w) ["n"%byte; "o"%byte]
    = Raised (Exception "UnidentifiedImageError" "cannot identify image file") ∧
  run.1 = Returned tt ∧
  delivered (journal run.2) = [text_message submission_apology] ∧
  disk run.2 !! "temp_AgAD.jpg" = Some ["n"%byte; "o"%byte].
Proof. repeat split. Qed.

(** C10, as the specification words it, fails: on an update without
    photo variants, with the transport down, the apology cannot be
    delivered and the handler raises the exception of the transport. *)
Lemma empty_photo_list_may_raise :
  photo (message (Toy.uploads [])) = [] ∧
  (handle_submission (Toy.offline 0) (Toy.uploads []) Toy.fresh).1
    = Raised Toy.NetworkError ∧
  delivered (journal (handle_submission (Toy.offline 0) (Toy.uploads []) Toy.fresh).2)
    = [].
Proof. repeat split. Qed.

(** C10, amended: on an update whose list of photo variants is empty, the
    index error of [photo[-1]] is caught and logged by the handler, which
    hands one message to the transport and no other, the apology for the
    failed processing.  When the transport delivers it the handler
    returns; when the transport raises, that exception leaves the handler,
    and the fallback of the framework logs it, so that processing the
    update still returns. *)
Theorem empty_photo_list (w : world) (update : Update) (s : state) :
  photo (message update) = [] →
  let apology := text_message submission_apology in
  ∃ r evs,
    handle_submission w update s
      = (r, {| disk := disk s; journal := journal s ++ evs |}) ∧
    head evs = Some (Logged ERROR
                       "Error in handle_submission: tuple index out of range") ∧
    attempted evs = [apology] ∧
    match transport w apology with
    | None => r = Returned tt ∧ delivered evs = [apology]
    | Some e' => r = Raised e' ∧ delivered evs = []
    end ∧
    (try_except (handle_submission w update) error_handler s).1 = Returned tt.
Proof.
  intros Hphoto apology. run. rewrite Hphoto. simpl. fold apology.
  destruct (transport w apology) as [e'|]; simpl;
    do 2 eexists;
    (split; [f_equal; unfold record; f_equal; journal_suffix |]);
    repeat split.
Qed.

Lemma empty_photo_list_witness :
  ∃ r evs,
    handle_submission (Toy.fair 0 []) (Toy.uploads []) Toy.fresh
      = (r, {| disk := ∅; journal := evs |}) ∧
    attempted evs = [text_message submission_apology] ∧
    r = Returned tt.
Proof.
  destruct (empty_photo_list (Toy.fair 0 []) (Toy.uploads []) Toy.fresh eq_refl)
    as (r & evs & Hrun & _ & Hsent & [Hr _] & _).
  exists r, evs. split; [exact Hrun |]. split; [exact Hsent | exact Hr].
Defined.

(** ** Exit codes *)

(** C3, as the specification words it, fails: when the transport client
    cannot be built, [main] logs the error and the process ends with exit
    code 0; it neither exits with a non-zero code nor keeps running. *)
Lemma transport_failure_exits_zero :
  application_build Boot.no_token = Some Boot.InvalidToken ∧
  bot_py Boot.no_token =
    (Exit 0,
     [ Logged INFO "Successfully initialized clients";
       Logged ERROR "Bot stopped due to error: You must pass the token you received from https://t.me/Botfather!";
       Logged INFO "Bot disconnected" ]) ∧
  (bot_py Boot.no_token).1 ≠ Exit 1 ∧
  (bot_py Boot.no_token).1 ≠ RunsUntilTerminated.
Proof. repeat split; discriminate. Qed.

(** C3, amended: the process ends with exit code 1 exactly when the
    initialisation of the clients at module level (the assignment of the
    API key) raises.  Otherwise it runs until terminated from outside
    exactly when the transport client is built, the port is read and
    [run_webhook] does not raise; and when one of these raises, [main]
    catches the exception and the process ends with exit code 0. *)
Theorem exit_codes (b : boot) :
  ((bot_py b).1 = Exit 1 ↔ assign_api_key b ≠ None) ∧
  ((bot_py b).1 = RunsUntilTerminated ↔
     assign_api_key b = None ∧ application_build b = None ∧
     (∃ p, port b = Returned p) ∧ run_webhook b = None) ∧
  ((bot_py b).1 = Exit 0 ↔
     assign_api_key b = None ∧
     (application_build b ≠ None ∨ (∃ e, port b = Raised e) ∨ run_webhook b ≠ None)) ∧
  (∀ c, (bot_py b).1 = Exit c → c = 0 ∨ c = 1).
Proof.
  destruct b as [[e1|] [e2|] [p|e3] [e4|]]; unfold bot_py; simpl;
    repeat split; try done;
    intros;
    repeat match goal with
           | H : _ ∧ _ |- _ => destruct H
           | H : _ ∨ _ |- _ => destruct H
           | H : ∃ _, _ |- _ => destruct H
           end;
    try congruence; eauto 6;
    match goal with
    | H : Exit _ = Exit _ |- _ => injection H as <-; auto
    end.
Qed.

Lemma exit_codes_witness :
  (bot_py Boot.no_client).1 = Exit 1 ∧
  (bot_py Boot.healthy).1 = RunsUntilTerminated ∧
  (bot_py Boot.no_token).1 = Exit 0.
Proof.
  split; [| split].
  - apply (proj1 (exit_codes Boot.no_client)). discriminate.
  - apply (proj1 (proj2 (exit_codes Boot.healthy))).
    repeat split. exists 8443. reflexivity.
  - apply (proj1 (proj2 (proj2 (exit_codes Boot.no_token)))).
    split; [reflexivity |]. left. discriminate.
Defined.


(** ** Further properties of the handlers *)

(** *** [start] *)

(** X1: on an update with a message, [start] answers with the welcome
    text; when the transport refuses it, the handler logs the error and
    tries the apology, and it raises only when the apology is refused as
    well.  On an edited command or a channel post, where [update.message]
    is [None], nothing reaches the transport: the handler logs the
    attribute error and raises the one of line 45.  The disk is left alone
    in every case. *)
Theorem start_replies (w : world) (i : Inbound) (s : state) :
  let welcome := text_message welcome_text in
  let apology := text_message start_apology in
  ∃ r evs,
    start_any w i s = (r, {| disk := disk s; journal := journal s ++ evs |}) ∧
    match i with
    | message_update _ =>
        match transport w welcome with
        | None =>
            r = Returned tt ∧ attempted evs = [welcome] ∧ delivered evs = [welcome]
        | Some e =>
            Logged ERROR ("Error in start handler: " +:+ exn_str e) ∈ evs ∧
            attempted evs = [welcome; apology] ∧
            match transport w apology with
            | None => r = Returned tt ∧ delivered evs = [apology]
            | Some e' => r = Raised e' ∧ delivered evs = []
            end
        end
    | edited_update user _ =>
        r = Raised (NoneType_has_no "reply_text") ∧
        evs = [ Logged INFO ("Start command received from user " +:+ str (id user));
                Logged ERROR
                  "Error in start handler: 'NoneType' object has no attribute 'reply_text'" ]
    | channel_update _ =>
        r = Raised (NoneType_has_no "reply_text") ∧
        evs = [ Logged ERROR
                  "Error in start handler: 'NoneType' object has no attribute 'id'" ]
    end.
Proof.
  intros welcome apology. subst welcome apology.
  unfold welcome_text, start_apology.
  destruct i as [update|user edited|post]; unfold start_any; run.
  - destruct (transport w (text_message (_ +:+ _))) as [e|]; simpl.
    + destruct (transport w (text_message _)) as [e'|]; simpl;
        do 2 eexists;
        (split; [f_equal; unfold record; f_equal; journal_suffix |]);
        (split; [set_solver |]); repeat split.
    + do 2 eexists;
        (split; [f_equal; unfold record; f_equal; journal_suffix |]);
        repeat split.
  - do 2 eexists.
    split; [f_equal; unfold record; f_equal; journal_suffix |].
    split; reflexivity.
  - do 2 eexists.
    split; [f_equal; unfold record; f_equal; journal_suffix |].
    split; reflexivity.
Qed.

(** X2: neither [start] nor the prompt handler touches the disk,
    whatever the update and whatever the provider and the transport
    answer. *)
Theorem replies_leave_disk (w : world) (update : Update) (s : state) :
  disk (start w update s).2 = disk s ∧
  disk (handle_prompt w update s).2 = disk s.
Proof. split; run; oracle_cases; reflexivity. Qed.

(** *** The prompt handler *)

(** X3: a response of the provider without any image is handled like a
    failed call: the index error of [response.data[0]] is caught, no photo
    is handed to the transport, and the one message is the apology that
    ends with "list index out of range"; the handler returns when the
    transport delivers it. *)
Theorem relay_empty_response (w : world) (update : Update) (t : string)
    (s : state) :
  text (message update) = Some t →
  String.prefix "/" t = false →
  images_generate w (generation_request t) = Returned {| data := [] |} →
  let apology :=
    text_message "Sorry, something went wrong: list index out of range" in
  ∃ r evs,
    handle_prompt w update s = (r, {| disk := disk s; journal := journal s ++ evs |}) ∧
    requested evs = [generation_request t] ∧
    attempted evs = [apology] ∧
    (r = Returned tt ↔ transport w apology = None).
Proof.
  intros Htext Hcmd Hgen apology. run. rewrite Htext, Hcmd. run. rewrite Hgen.
  simpl.
  change (text_message (prompt_apology (IndexError "list"))) with apology.
  destruct (transport w apology) as [e'|]; simpl;
    do 2 eexists;
    (split; [f_equal; unfold record; f_equal; journal_suffix |]);
    (split; [reflexivity |]); (split; [reflexivity |]);
    split; intros; congruence.
Qed.

Lemma relay_empty_response_witness :
  ∃ r evs,
    handle_prompt (Cases.world_with (Returned Cases.no_image) Cases.delivers
                     (Cases.serves []) 3)
                  (Toy.says "a dog") Toy.fresh
      = (r, {| disk := ∅; journal := evs |}) ∧
    attempted evs
      = [text_message "Sorry, something went wrong: list index out of range"] ∧
    r = Returned tt.
Proof.
  destruct (relay_empty_response
              (Cases.world_with (Returned Cases.no_image) Cases.delivers
                 (Cases.serves []) 3)
              (Toy.says "a dog") "a dog" Toy.fresh eq_refl eq_refl eq_refl)
    as (r & evs & Hrun & _ & Hsent & Hr).
  exists r, evs. split; [exact Hrun |]. split; [exact Hsent |].
  apply Hr. reflexivity.
Defined.

(** X4: of a response with several images the handler sends the first
    and only the first: when the transport delivers the photo, the one
    outbound message is the photo of the first URL. *)
Theorem relay_sends_first_image (w : world) (update : Update) (t : string)
    (image : GeneratedImage) (others : list GeneratedImage) (s : state) :
  text (message update) = Some t →
  String.prefix "/" t = false →
  images_generate w (generation_request t) = Returned {| data := image :: others |} →
  let rating := randint w 1 10 in
  let sheet := photo_message (url image)
                 (prompt_caption rating (prompt_appreciation rating)) in
  transport w sheet = None →
  ∃ evs,
    handle_prompt w update s
      = (Returned tt, {| disk := disk s; journal := journal s ++ evs |}) ∧
    attempted evs = [sheet] ∧ delivered evs = [sheet].
Proof.
  intros Htext Hcmd Hgen rating sheet Hsend.
  run. rewrite Htext, Hcmd. run. rewrite Hgen. run.
  fold rating. fold sheet. rewrite Hsend.
  eexists. split; [f_equal; unfold record; f_equal; journal_suffix |].
  split; reflexivity.
Qed.

Lemma relay_sends_first_image_witness :
  ∃ evs,
    handle_prompt (Cases.world_with (Returned Cases.two_images) Cases.delivers
                     (Cases.serves []) 5)
                  (Toy.says "a dog") Toy.fresh
      = (Returned tt, {| disk := ∅; journal := evs |}) ∧
    delivered evs
      = [ photo_message "https://images.example/first.png"
            (prompt_caption 6 "Good effort! Keep it up!") ].
Proof.
  destruct (relay_sends_first_image
              (Cases.world_with (Returned Cases.two_images) Cases.delivers
                 (Cases.serves []) 5)
              (Toy.says "a dog") "a dog"
              {| url := "https://images.example/first.png" |}
              [ {| url := "https://images.example/second.png" |} ]
              Toy.fresh eq_refl eq_refl eq_refl eq_refl)
    as (evs & Hrun & _ & Hsent).
  exists evs. split; [exact Hrun | exact Hsent].
Defined.

(** X5: when the transport refuses the photo with [e], the handler
    treats it like a failed generation: it logs [e] and hands over a
    second message, the apology that ends with the text of [e]; it returns
    exactly when that apology is delivered. *)
Theorem relay_photo_refused (w : world) (update : Update) (t : string)
    (image : GeneratedImage) (others : list GeneratedImage) (e : exn)
    (s : state) :
  text (message update) = Some t →
  String.prefix "/" t = false →
  images_generate w (generation_request t) = Returned {| data := image :: others |} →
  let rating := randint w 1 10 in
  let sheet := photo_message (url image)
                 (prompt_caption rating (prompt_appreciation rating)) in
  let apology := text_message ("Sorry, something went wrong: " +:+ exn_str e) in
  transport w sheet = Some e →
  ∃ r evs,
    handle_prompt w update s = (r, {| disk := disk s; journal := journal s ++ evs |}) ∧
    Logged ERROR ("Error in handle_prompt: " +:+ exn_str e) ∈ evs ∧
    attempted evs = [sheet; apology] ∧
    filter is_photo (delivered evs) = [] ∧
    (r = Returned tt ↔ transport w apology = None).
Proof.
  intros Htext Hcmd Hgen rating sheet apology Hsend.
  run. rewrite Htext, Hcmd. run. rewrite Hgen. run.
  fold rating. fold sheet. rewrite Hsend.
  change (text_message (prompt_apology e)) with apology.
  destruct (transport w apology) as [e'|] eqn:Hsorry; simpl;
    do 2 eexists;
    (split; [f_equal; unfold record; f_equal; journal_suffix |]);
    (split; [set_solver |]); (split; [reflexivity |]);
    (split; [reflexivity |]);
    split; intros; congruence.
Qed.

Lemma relay_photo_refused_witness :
  ∃ r evs,
    handle_prompt (Cases.world_with (Returned Toy.one_image) Cases.refuses_photos
                     (Cases.serves []) 0)
                  (Toy.says "a dog") Toy.fresh
      = (r, {| disk := ∅; journal := evs |}) ∧
    attempted evs
      = [ photo_message "https://images.example/sheet.png"
            (prompt_caption 1 "Nice try! Keep practicing!");
          text_message "Sorry, something went wrong: Wrong file identifier/HTTP URL specified" ] ∧
    r = Returned tt.
Proof.
  destruct (relay_photo_refused
              (Cases.world_with (Returned Toy.one_image) Cases.refuses_photos
                 (Cases.serves []) 0)
              (Toy.says "a dog") "a dog"
              {| url := "https://images.example/sheet.png" |} []
              (Exception "BadRequest" "Wrong file identifier/HTTP URL specified")
              Toy.fresh eq_refl eq_refl eq_refl eq_refl)
    as (r & evs & Hrun & _ & Hsent & _ & Hr).
  exists r, evs. split; [exact Hrun |]. split; [exact Hsent |].
  apply Hr. reflexivity.
Defined.

(** X6: the score in the caption does not depend on the prompt or on the
    image the provider returns: two runs that get an image, under the same
    state of the random generator, hand over photos with the same
    caption. *)
Theorem relay_caption_independent (w1 w2 : world) (u1 u2 : Update)
    (t1 t2 : string) (image1 image2 : GeneratedImage)
    (others1 others2 : list GeneratedImage) (s1 s2 : state) :
  text (message u1) = Some t1 → String.prefix "/" t1 = false →
  text (message u2) = Some t2 → String.prefix "/" t2 = false →
  images_generate w1 (generation_request t1) = Returned {| data := image1 :: others1 |} →
  images_generate w2 (generation_request t2) = Returned {| data := image2 :: others2 |} →
  entropy w1 = entropy w2 →
  ∃ caption r1 r2 s1' s2' evs1 evs2 rest1 rest2,
    handle_prompt w1 u1 s1 = (r1, s1') ∧
    handle_prompt w2 u2 s2 = (r2, s2') ∧
    journal s1' = journal s1 ++ evs1 ∧
    journal s2' = journal s2 ++ evs2 ∧
    attempted evs1 = photo_message (url image1) caption :: rest1 ∧
    attempted evs2 = photo_message (url image2) caption :: rest2.
Proof.
  intros Ht1 Hc1 Ht2 Hc2 Hg1 Hg2 Hentropy.
  exists (prompt_caption (randint w1 1 10) (prompt_appreciation (randint w1 1 10))).
  assert (Hrating : randint w2 1 10 = randint w1 1 10).
  { unfold randint. by rewrite Hentropy. }
  run. rewrite Ht1, Hc1, Ht2, Hc2. run. rewrite Hg1, Hg2. run. rewrite Hrating.
  destruct (transport w1 (photo_message _ _)) as [e1|];
    destruct (transport w2 (photo_message _ _)) as [e2|]; simpl;
    repeat (match goal with
            | |- context [transport ?w (text_message ?b)] =>
                destruct (transport w (text_message b))
            end; simpl);
    do 8 eexists;
    (split; [reflexivity |]); (split; [reflexivity |]);
    (split; [unfold record; simpl; journal_suffix |]);
    (split; [unfold record; simpl; journal_suffix |]);
    split; reflexivity.
Qed.

Lemma relay_caption_independent_witness :
  ∃ caption r1 r2 s1' s2' evs1 evs2 rest1 rest2,
    handle_prompt (Toy.fair 12 []) (Toy.says "a cat") Toy.fresh = (r1, s1') ∧
    handle_prompt (Cases.world_with (Returned Cases.two_images) Cases.refuses_photos
                     (Cases.serves []) 12)
                  (Toy.says "a dog on a boat") Toy.fresh = (r2, s2') ∧
    journal s1' = evs1 ∧
    journal s2' = evs2 ∧
    attempted evs1 = photo_message "https://images.example/sheet.png" caption :: rest1 ∧
    attempted evs2 = photo_message "https://images.example/first.png" caption :: rest2.
Proof.
  exact (relay_caption_independent
           (Toy.fair 12 [])
           (Cases.world_with (Returned Cases.two_images) Cases.refuses_photos
              (Cases.serves []) 12)
           (Toy.says "a cat") (Toy.says "a dog on a boat")
           "a cat" "a dog on a boat"
           {| url := "https://images.example/sheet.png" |}
           {| url := "https://images.example/first.png" |}
           [] [ {| url := "https://images.example/second.png" |} ]
           Toy.fresh Toy.fresh
           eq_refl eq_refl eq_refl eq_refl eq_refl eq_refl eq_refl).
Defined.

(** *** The submission handler *)

Lemma append_cancel_r (a b c : string) : a +:+ c = b +:+ c → a = b.
Proof.
  assert (Hlen : ∀ x y : string,
             String.length (x +:+ y) = (String.length x + String.length y)%nat).
  { intros x y. induction x as [|ch x IH]; [reflexivity |].
    change (String ch x +:+ y) with (String ch (x +:+ y)). simpl. by rewrite IH. }
  revert b. induction a as [|ch a IH]; intros [|ch' b] H.
  - reflexivity.
  - apply (f_equal String.length) in H. rewrite !Hlen in H. simpl in H. lia.
  - apply (f_equal String.length) in H. rewrite !Hlen in H. simpl in H. lia.
  - change (String ch (a +:+ c) = String ch' (b +:+ c)) in H.
    injection H as -> H. f_equal. by apply IH.
Qed.

Lemma temp_path_cancel (fid1 fid2 : string) :
  temp_path fid1 = temp_path fid2 → fid1 = fid2.
Proof.
  unfold temp_path. intros H.
  apply (inj (String.app "temp_")) in H. by apply append_cancel_r in H.
Qed.

(** X7: the name of the transient file determines the file identifier:
    two submissions share a transient file exactly when their file
    identifiers are the same. *)
Theorem temp_path_inj (fid1 fid2 : string) :
  temp_path fid1 = temp_path fid2 ↔ fid1 = fid2.
Proof.
  split; [apply temp_path_cancel | by intros ->].
Qed.

(** The handler touches no file but the transient file of the last
    variant. *)
Lemma handle_submission_frame (w : world) (update : Update) (s : state)
    (path : string) :
  (∀ p, last (photo (message update)) = Some p → path ≠ temp_path (file_id p)) →
  disk (handle_submission w update s).2 !! path = disk s !! path.
Proof.
  intros Hother. run.
  destruct (last (photo (message update))) as [p|] eqn:Hlast; simpl.
  - specialize (Hother p eq_refl).
    oracle_cases;
      rewrite ?lookup_delete_ne, ?lookup_insert_ne by (by apply not_eq_sym);
      reflexivity.
  - oracle_cases; reflexivity.
Qed.

(** X8: the submission handler reads, writes and removes one file only,
    the transient file named after the last variant: every other path of
    the disk holds after the run what it held before, whether the run
    succeeds or fails. *)
Theorem submission_touches_one_file (w : world) (update : Update) (s : state)
    (path : string) :
  (∀ p, last (photo (message update)) = Some p → path ≠ temp_path (file_id p)) →
  disk (handle_submission w update s).2 !! path = disk s !! path.
Proof. apply handle_submission_frame. Qed.

Lemma submission_touches_one_file_witness :
  disk (handle_submission (Toy.fair 2 ["L"%byte; "q"%byte])
          (Toy.uploads ["s"; "AgAD"])
          {| disk := {[ "temp_s.jpg" := ["k"%byte] ]}; journal := [] |}).2
    !! "temp_s.jpg"
  = Some ["k"%byte].
Proof.
  rewrite (submission_touches_one_file (Toy.fair 2 ["L"%byte; "q"%byte])
             (Toy.uploads ["s"; "AgAD"])
             {| disk := {[ "temp_s.jpg" := ["k"%byte] ]}; journal := [] |}
             "temp_s.jpg").
  - reflexivity.
  - intros p [= <-]. discriminate.
Defined.

(** X9: once the file is downloaded, the transient file is gone after
    the run exactly when every later step succeeded, that is when the
    content decodes, the encoder returns and the confirmation is
    delivered; after any failure in between it is still on the disk. *)
Theorem transient_file_removed_iff (w : world) (update : Update) (s : state)
    (p : PhotoSize) (file : File) (content : bytes) :
  last (photo (message update)) = Some p →
  get_file w (file_id p) = Returned file →
  remote_content file = Returned content →
  let rating := randint w 1 10 in
  let reply := text_message (submission_reply rating (submission_appreciation rating)) in
  disk (handle_submission w update s).2 !! temp_path (file_id p) = None ↔
  ∃ (img : Image (pil w)) (jpeg : bytes),
    Image_open (pil w) content = Returned img ∧
    save (pil w) (as_RGB (pil w) img) "JPEG" = Returned jpeg ∧
    transport w reply = None.
Proof.
  intros Hlast Hfile Hcontent rating reply.
  run. rewrite Hlast. simpl. rewrite Hfile. simpl. rewrite Hcontent. simpl.
  rewrite lookup_insert_eq. fold rating. fold reply.
  destruct (Image_open (pil w) content) as [img|e] eqn:Himg; simpl.
  - destruct (save (pil w) (as_RGB (pil w) img) "JPEG") as [jpeg|e] eqn:Hsave; simpl.
    + destruct (transport w reply) as [e|] eqn:Hreply; simpl.
      * destruct (transport w (text_message submission_apology)); simpl;
          rewrite lookup_insert_eq;
          (split; [discriminate | intros (? & ? & ? & ? & [=])]).
      * rewrite lookup_insert_eq. simpl. rewrite lookup_delete_eq.
        split; [eauto | reflexivity].
    + rewrite lookup_insert_eq. simpl.
      destruct (transport w (text_message submission_apology)); simpl;
        rewrite lookup_insert_eq;
        (split; [discriminate | intros (i & j & [= <-] & Hj & _); congruence]).
  - destruct (transport w (text_message submission_apology)); simpl;
      rewrite lookup_insert_eq;
      (split; [discriminate | intros (? & ? & [=] & _)]).
Qed.

Lemma transient_file_removed_iff_witness :
  disk (handle_submission (Toy.fair 6 ["L"%byte; "q"%byte]) (Toy.uploads ["AgAD"])
          Toy.fresh).2 !! "temp_AgAD.jpg" = None.
Proof.
  apply (transient_file_removed_iff (Toy.fair 6 ["L"%byte; "q"%byte])
           (Toy.uploads ["AgAD"]) Toy.fresh {| file_id := "AgAD" |}
           {| remote_content := Returned ["L"%byte; "q"%byte] |}
           ["L"%byte; "q"%byte] eq_refl eq_refl eq_refl).
  exists ("L", ["q"%byte]), ["R"%byte; "q"%byte]. repeat split.
Defined.

(** X10: after a run in which every step succeeds the disk is the disk
    of before without the transient path: the other files are as they
    were, and a file that already had the name of the transient file is
    gone with it. *)
Theorem submission_success_disk (w : world) (update : Update) (s : state)
    (p : PhotoSize) (file : File) (content : bytes) (img : Image (pil w))
    (jpeg : bytes) :
  last (photo (message update)) = Some p →
  get_file w (file_id p) = Returned file →
  remote_content file = Returned content →
  Image_open (pil w) content = Returned img →
  save (pil w) (as_RGB (pil w) img) "JPEG" = Returned jpeg →
  transport w (text_message
                 (submission_reply (randint w 1 10)
                    (submission_appreciation (randint w 1 10)))) = None →
  (handle_submission w update s).1 = Returned tt ∧
  disk (handle_submission w update s).2 = delete (temp_path (file_id p)) (disk s).
Proof.
  intros Hlast Hfile Hcontent Himg Hsave Hsend.
  rewrite (handle_submission_normalised w update s p file content img jpeg
             Hlast Hfile Hcontent Himg Hsave).
  simpl. rewrite Hsend. simpl. split; [reflexivity |].
  by rewrite !delete_insert_eq.
Qed.

Lemma submission_success_disk_witness :
  disk (handle_submission (Toy.fair 6 ["P"%byte; "q"%byte]) (Toy.uploads ["AgAD"])
          {| disk := {[ "temp_AgAD.jpg" := ["o"%byte] ]}; journal := [] |}).2
  = delete "temp_AgAD.jpg" {[ "temp_AgAD.jpg" := ["o"%byte] ]}.
Proof.
  exact (proj2 (submission_success_disk (Toy.fair 6 ["P"%byte; "q"%byte])
                  (Toy.uploads ["AgAD"])
                  {| disk := {[ "temp_AgAD.jpg" := ["o"%byte] ]}; journal := [] |}
                  {| file_id := "AgAD" |}
                  {| remote_content := Returned ["P"%byte; "q"%byte] |}
                  ["P"%byte; "q"%byte] ("P", ["q"%byte]) ["R"%byte; "q"%byte]
                  eq_refl eq_refl eq_refl eq_refl eq_refl eq_refl)).
Defined.

(** X11: when the file cannot be fetched or downloaded, nothing is
    written: the handler logs the exception, hands the apology to the
    transport as the one message, and leaves the disk as it was. *)
Theorem submission_download_failure (w : world) (update : Update) (s : state)
    (p : PhotoSize) (e : exn) :
  last (photo (message update)) = Some p →
  get_file w (file_id p) = Raised e ∨
  (∃ file, get_file w (file_id p) = Returned file ∧ remote_content file = Raised e) →
  ∃ r evs,
    handle_submission w update s
      = (r, {| disk := disk s; journal := journal s ++ evs |}) ∧
    head evs = Some (Logged ERROR ("Error in handle_submission: " +:+ exn_str e)) ∧
    attempted evs = [text_message submission_apology] ∧
    (r = Returned tt ↔ transport w (text_message submission_apology) = None).
Proof.
  intros Hlast Hfail. run. rewrite Hlast. simpl.
  destruct Hfail as [Hfile|(file & Hfile & Hcontent)]; rewrite Hfile; simpl;
    rewrite ?Hcontent; simpl;
    destruct (transport w (text_message submission_apology)) as [e'|]; simpl;
    do 2 eexists;
    (split; [f_equal; unfold record; f_equal; journal_suffix |]);
    (split; [reflexivity |]); (split; [reflexivity |]);
    split; intros; congruence.
Qed.

Lemma submission_download_failure_witness :
  ∃ r evs,
    handle_submission (Cases.world_with (Returned Toy.one_image) Cases.delivers
                         Cases.file_gone 1)
                      (Toy.uploads ["AgAD"]) Toy.fresh
      = (r, {| disk := ∅; journal := evs |}) ∧
    head evs = Some (Logged ERROR "Error in handle_submission: File is too big") ∧
    r = Returned tt.
Proof.
  destruct (submission_download_failure
              (Cases.world_with (Returned Toy.one_image) Cases.delivers
                 Cases.file_gone 1)
              (Toy.uploads ["AgAD"]) Toy.fresh {| file_id := "AgAD" |}
              (Exception "BadRequest" "File is too big")
              eq_refl (or_introl eq_refl))
    as (r & evs & Hrun & Hlog & _ & Hr).
  exists r, evs. split; [exact Hrun |]. split; [exact Hlog |].
  apply Hr. reflexivity.
Defined.

(** X12: whatever happens, the submission handler hands the transport
    nothing but the confirmation for the score drawn, a score between 1
    and 10, and the fixed apology: never a photo, never the text of an
    exception; and it makes no request to the provider. *)
Theorem submission_messages (w : world) (update : Update) (s : state) :
  let rating := randint w 1 10 in
  1 ≤ rating ≤ 10 ∧
  ∃ evs,
    journal (handle_submission w update s).2 = journal s ++ evs ∧
    requested evs = [] ∧
    ∀ m, m ∈ attempted evs →
         m = text_message (submission_reply rating (submission_appreciation rating)) ∨
         m = text_message submission_apology.
Proof.
  intros rating. split; [apply rating_range |].
  run. fold rating.
  oracle_cases;
    (eexists; split; [unfold record, on_disk; simpl; journal_suffix |]);
    (split; [reflexivity |]);
    intros m Hm; simpl in Hm;
    repeat (apply elem_of_cons in Hm as [->|Hm]; [by auto |]);
    by apply elem_of_nil in Hm.
Qed.

(** X13: a failed submission leaves its file behind for good: when the
    content of a first submission does not decode, its transient file
    still holds the downloaded content after any later submission with
    another file identifier, whatever that later run does. *)
Theorem leftover_survives (w1 w2 : world) (u1 u2 : Update) (s : state)
    (p1 : PhotoSize) (file1 : File) (content1 : bytes) (e : exn) :
  last (photo (message u1)) = Some p1 →
  get_file w1 (file_id p1) = Returned file1 →
  remote_content file1 = Returned content1 →
  Image_open (pil w1) content1 = Raised e →
  (∀ p2, last (photo (message u2)) = Some p2 → file_id p2 ≠ file_id p1) →
  disk (handle_submission w2 u2 (handle_submission w1 u1 s).2).2
    !! temp_path (file_id p1) = Some content1.
Proof.
  intros Hlast Hfile Hcontent Himg Hids.
  rewrite handle_submission_frame.
  - by apply (transient_file_kept_on_decode_failure w1 u1 s p1 file1 content1 e).
  - intros p2 Hp2 Hpath. apply temp_path_cancel in Hpath.
    by apply (Hids p2 Hp2).
Qed.

Lemma leftover_survives_witness :
  disk (handle_submission (Toy.fair 4 ["R"%byte; "g"%byte]) (Toy.uploads ["BQAD"])
          (handle_submission (Toy.fair 3 ["n"%byte; "o"%byte]) (Toy.uploads ["AgAD"])
             Toy.fresh).2).2
    !! "temp_AgAD.jpg" = Some ["n"%byte; "o"%byte].
Proof.
  apply (leftover_survives (Toy.fair 3 ["n"%byte; "o"%byte])
           (Toy.fair 4 ["R"%byte; "g"%byte])
           (Toy.uploads ["AgAD"]) (Toy.uploads ["BQAD"]) Toy.fresh
           {| file_id := "AgAD" |}
           {| remote_content := Returned ["n"%byte; "o"%byte] |}
           ["n"%byte; "o"%byte]
           (Exception "UnidentifiedImageError" "cannot identify image file")
           eq_refl eq_refl eq_refl eq_refl).
  intros p2 [= <-]. discriminate.
Defined.

(** *** The handler table *)

(** X14: an update that no entry of the table accepts is dropped without
    a trace: a message that is not the start command, has no photo and has
    no text, an empty text or a command text gets no reply, no log line
    and no request to the provider. *)
Theorem unmatched_update_ignored (w : world) (update : Update) (s : state) :
  is_start_command w (message update) = false →
  photo (message update) = [] →
  text (message update) = None ∨
  text (message update) = Some EmptyString ∨
  filters_COMMAND w (message update) = true →
  process_update w update s = (Returned tt, s).
Proof.
  intros Hstart Hphoto Htext.
  unfold process_update, try_except, handlers, dispatch, filters_PHOTO, filters_TEXT.
  rewrite Hstart, Hphoto. simpl.
  destruct Htext as [Ht | [Ht | Ht]]; rewrite Ht; simpl.
  - reflexivity.
  - reflexivity.
  - rewrite andb_false_r. reflexivity.
Qed.

Lemma unmatched_update_ignored_witness :
  process_update (Toy.fair 0 []) (Toy.says "/help") Toy.fresh = (Returned tt, Toy.fresh).
Proof.
  apply (unmatched_update_ignored (Toy.fair 0 []) (Toy.says "/help") Toy.fresh
           eq_refl eq_refl).
  right. right. reflexivity.
Defined.

(** On an update with a message the table of any update is the table
    of [main] above. *)
Lemma dispatch_any_message (w : world) (update : Update) (s : state) :
  dispatch_any (inbound_handlers w) w (message_update update) s
    = dispatch (handlers w) w update s.
Proof.
  unfold inbound_handlers, handlers, dispatch_any, dispatch. simpl.
  repeat match goal with
         | |- context [if ?c then _ else _] => destruct c; try reflexivity
         end.
Qed.

(** X15: an exception leaves the handler that the table picks in two
    ways only.  On an update with a message it is the exception the
    transport raised on the last message of the handler, a text.  On an
    edited message or a channel post, where [update.message] is [None], it
    is the attribute error of the read on [None], and nothing has been
    handed to the transport.  Every other exception is caught inside the
    handlers. *)
Theorem only_send_failures_escape (w : world) (i : Inbound) (s s' : state)
    (e : exn) :
  dispatch_any (inbound_handlers w) w i s = (Raised e, s') →
  ∃ evs,
    journal s' = journal s ++ evs ∧
    match i with
    | message_update _ =>
        ∃ body, last evs = Some (SendFailed (text_message body) e)
    | edited_update _ _ | channel_update _ =>
        exn_class e = "AttributeError" ∧ attempted evs = []
    end.
Proof.
  destruct i as [update|user edited|post].
  - rewrite dispatch_any_message.
    unfold handlers, dispatch, filters_PHOTO, filters_TEXT. run.
    oracle_cases; intros Hrun; inversion Hrun; subst;
      eexists;
      (split; [unfold record, on_disk; simpl; journal_suffix |]);
      eexists; reflexivity.
  - unfold inbound_handlers, dispatch_any, start_any, handle_submission_any,
      handle_prompt_any, filters_PHOTO, filters_TEXT. run.
    oracle_cases; intros Hrun; inversion Hrun; subst;
      eexists;
      (split; [unfold record, on_disk; simpl;
               first [journal_suffix | symmetry; apply app_nil_r] |]);
      split; reflexivity.
  - unfold inbound_handlers, dispatch_any, start_any, handle_submission_any,
      handle_prompt_any, filters_PHOTO, filters_TEXT. run.
    oracle_cases; intros Hrun; inversion Hrun; subst;
      eexists;
      (split; [unfold record, on_disk; simpl;
               first [journal_suffix | symmetry; apply app_nil_r] |]);
      split; reflexivity.
Qed.

Lemma only_send_failures_escape_witness :
  (∃ evs,
     journal (dispatch_any (inbound_handlers (Toy.offline 0)) (Toy.offline 0)
                (message_update (Toy.says "cat")) Toy.fresh).2 = evs ∧
     ∃ body, last evs = Some (SendFailed (text_message body) Toy.NetworkError)) ∧
  (∃ evs,
     journal (dispatch_any (inbound_handlers (Toy.fair 0 [])) (Toy.fair 0 [])
                (edited_update {| id := 42 |} {| text := Some "cat"; photo := [] |})
                Toy.fresh).2 = evs ∧
     attempted evs = []).
Proof.
  split.
  - exact (only_send_failures_escape (Toy.offline 0)
             (message_update (Toy.says "cat")) Toy.fresh _
             Toy.NetworkError eq_refl).
  - destruct (only_send_failures_escape (Toy.fair 0 [])
                (edited_update {| id := 42 |} {| text := Some "cat"; photo := [] |})
                Toy.fresh _ (NoneType_has_no "text") eq_refl)
      as (evs & Hj & _ & Hsent).
    exists evs. split; [exact Hj | exact Hsent].
Defined.


(** *** The log of the start-up *)

(** X17: the last line of the log tells how the process ended: it is
    "Bot disconnected" exactly when the process ended with exit code 0,
    "Starting bot..." exactly when the process serves, and when the
    initialisation of the clients fails the log holds the one line of that
    failure and [main] is never entered. *)
Theorem shutdown_log (b : boot) :
  (last (bot_py b).2 = Some (Logged INFO "Bot disconnected") ↔ (bot_py b).1 = Exit 0) ∧
  (last (bot_py b).2 = Some (Logged INFO "Starting bot...")
     ↔ (bot_py b).1 = RunsUntilTerminated) ∧
  (∀ e, assign_api_key b = Some e →
        bot_py b = (Exit 1, [Logged ERROR ("Failed to initialize clients: " +:+ exn_str e)])).
Proof.
  destruct b as [[e1|] [e2|] [p|e3] [e4|]]; unfold bot_py; simpl;
    repeat split; try done; intros ? [= <-]; reflexivity.
Qed.
